(** * Keycloak driver for the Ally OAuth2 extension point

    A shallow embedding of [src/Keycloak/index.ts]: the configuration
    record, the request builder handed to customizer callbacks, the
    constructor with its two guards, the URL templating, the user-info
    fetch and the field mapping, followed by the properties of the
    driver that the specification states. *)

From Stdlib Require Import PrimFloat Ascii String.
From stdpp Require Import base option strings gmap.

Local Open Scope string_scope.

(** ** JavaScript values *)

(** Values as the driver meets them: parsed JSON payloads, request
    inputs and header values.  Numbers are IEEE-754 doubles.  Objects
    carry their own properties; [VBuiltin] stands for a function object
    owned by the runtime (only its identity matters here). *)
#[warnings="-register-all"]
Inductive value : Type :=
  | VUndefined
  | VNull
  | VBool (b : bool)
  | VNum (n : float)
  | VStr (s : string)
  | VArr (items : list value)
  | VObj (props : gmap string value)
  | VBuiltin (name : string).

(** ToBoolean. *)
Definition truthy (v : value) : bool :=
  match v with
  | VUndefined | VNull => false
  | VBool b => b
  | VNum n => negb (PrimFloat.is_zero n || PrimFloat.is_nan n)
  | VStr s => negb (String.eqb s "")
  | VArr _ | VObj _ | VBuiltin _ => true
  end.

(** Thrown values. [JsError] is [new Error(message)], [TypeError] is
    raised by the runtime, [Rejected] is whatever a framework promise
    rejects with. *)
Inductive exn : Type :=
  | JsError (message : string)
  | TypeError (message : string)
  | Rejected (reason : value).

Definition result (A : Type) : Type := exn + A.

(** ** Strings *)

(** [strip_prefix p s] is the rest of [s] after its prefix [p], when
    [s] starts with [p]. *)
Fixpoint strip_prefix (p s : string) : option string :=
  match p, s with
  | EmptyString, _ => Some s
  | String a p', String b s' => if Ascii.eqb a b then strip_prefix p' s' else None
  | String _ _, EmptyString => None
  end.

(** StringIndexOf from position 0, returned as the text before and
    after the first occurrence of [search]. *)
Fixpoint find_first (search s : string) : option (string * string) :=
  match strip_prefix search s with
  | Some following => Some (EmptyString, following)
  | None =>
      match s with
      | EmptyString => None
      | String c s' =>
          match find_first search s' with
          | Some (preceding, following) => Some (String c preceding, following)
          | None => None
          end
      end
  end.

Definition includes (s search : string) : bool :=
  bool_decide (is_Some (find_first search s)).

(** GetSubstitution for a string pattern (no captures): [$$] is a
    dollar sign, [$&] the matched text, [$`] the text before the match,
    [$'] the text after it; every other character, a dollar sign before
    a digit or [<] included, stands for itself. *)
Fixpoint GetSubstitution (matched preceding following template : string) : string :=
  match template with
  | EmptyString => EmptyString
  | String c rest =>
      let literal := String c (GetSubstitution matched preceding following rest) in
      if Ascii.eqb c "$"%char then
        match rest with
        | EmptyString => literal
        | String d rest' =>
            let tail := GetSubstitution matched preceding following rest' in
            if Ascii.eqb d "$"%char then String "$"%char tail
            else if Ascii.eqb d "&"%char then matched +:+ tail
            else if Ascii.eqb d "`"%char then preceding +:+ tail
            else if Ascii.eqb d "'"%char then following +:+ tail
            else literal
        end
      else literal
  end.

(** [String.prototype.replace] with a string pattern: the first
    occurrence only, the replacement expanded by [GetSubstitution]. *)
Definition replace (s search replaceValue : string) : string :=
  match find_first search s with
  | None => s
  | Some (preceding, following) =>
      preceding +:+ GetSubstitution search preceding following replaceValue +:+ following
  end.

(** The double-quote character of the error messages. *)
Definition dq : string := String (Ascii.ascii_of_nat 34) EmptyString.

(** ** Configuration and request context *)

Module Config.
(** [KeycloakConfig]; an optional field that is not supplied is [None]. *)
Record t : Type := {
  driver : string;
  keycloakUrl : option string;
  realm : option string;
  clientId : string;
  clientSecret : string;
  callbackUrl : string;
  authorizeUrl : option string;
  accessTokenUrl : option string;
  userInfoUrl : option string
}.
End Config.

Abbreviation KeycloakConfig := Config.t.

(** An optional string read as a value. *)
Definition optional (o : option string) : value :=
  match o with
  | Some s => VStr s
  | None => VUndefined
  end.

(** ToString of an optional string used as an argument. *)
Definition ToString (o : option string) : string :=
  match o with
  | Some s => s
  | None => "undefined"
  end.

(** [a ?? b] on an optional string. *)
Definition nullish (o : option string) (fallback : string) : string :=
  match o with
  | Some s => s
  | None => fallback
  end.

(** The part of [HttpContext] the driver touches: the merged request
    data behind [ctx.request.input] and the cookies. *)
Record HttpContext : Type := {
  request_data : gmap string value;
  cookies : gmap string string
}.

(** [ctx.request.input(key)]. *)
Definition input (ctx : HttpContext) (key : string) : value :=
  default VUndefined (request_data ctx !! key).

(** ** The request builder

    [ApiRequestContract], the object returned by [this.httpClient(url)]
    and handed to customizer callbacks.  The URL is fixed when the
    builder is created; the contract has methods for parameters,
    headers, fields and the two modes, and none for the URL. *)

Inductive ResponseType : Type := AsJson | AsText | AsBuffer.
Inductive RequestType : Type := SendJson | SendUrlencoded.

Record ApiRequest : Type := {
  baseUrl : string;
  params : gmap string value;
  headers : gmap string value;
  fields : gmap string value;
  requestType : RequestType;
  responseType : ResponseType
}.

Definition httpClient (url : string) : ApiRequest :=
  {| baseUrl := url; params := ∅; headers := ∅; fields := ∅;
     requestType := SendUrlencoded; responseType := AsText |}.

Definition header (key : string) (v : value) (request : ApiRequest) : ApiRequest :=
  {| baseUrl := baseUrl request; params := params request;
     headers := <[key := v]> (headers request); fields := fields request;
     requestType := requestType request; responseType := responseType request |}.

Definition clearHeader (key : string) (request : ApiRequest) : ApiRequest :=
  {| baseUrl := baseUrl request; params := params request;
     headers := delete key (headers request); fields := fields request;
     requestType := requestType request; responseType := responseType request |}.

Definition param (key : string) (v : value) (request : ApiRequest) : ApiRequest :=
  {| baseUrl := baseUrl request; params := <[key := v]> (params request);
     headers := headers request; fields := fields request;
     requestType := requestType request; responseType := responseType request |}.

Definition parseAs (type : ResponseType) (request : ApiRequest) : ApiRequest :=
  {| baseUrl := baseUrl request; params := params request;
     headers := headers request; fields := fields request;
     requestType := requestType request; responseType := type |}.

(** [type Callback = (request: ApiRequestContract) => void]: the
    callback mutates the request it is given, written here as the
    request it leaves behind; or it throws. *)
Definition Callback : Type := ApiRequest -> result ApiRequest.

(** [callback(request)]: the state of [request] when the callback
    returns, or what it throws.  Whatever the callback does to the
    request goes through the contract, so the URL stays. *)
Definition call (callback : Callback) (request : ApiRequest) : result ApiRequest :=
  match callback request with
  | inl e => inl e
  | inr after =>
      inr {| baseUrl := baseUrl request; params := params after;
             headers := headers after; fields := fields after;
             requestType := requestType after; responseType := responseType after |}
  end.

(** ** The driver object *)

Record KeycloakDriver : Type := {
  ctx : HttpContext;
  config : KeycloakConfig;
  authorizeUrl : string;
  accessTokenUrl : string;
  userInfoUrl : string;
  stateCookieValue : option string
}.

Definition codeParamName : string := "code".
Definition errorParamName : string := "error".
Definition stateCookieName : string := "keycloak_oauth_state".
Definition stateParamName : string := "state".
Definition scopeParamName : string := "scope".
Definition scopesSeparator : string := " ".

(** Modelled from the spec: the framework's [loadState], which is not
    part of this repository; it reads the state cookie set by the
    redirect request and clears it. *)
Definition loadState (this : KeycloakDriver) : KeycloakDriver :=
  {| ctx := {| request_data := request_data (ctx this);
               cookies := delete stateCookieName (cookies (ctx this)) |};
     config := config this;
     authorizeUrl := authorizeUrl this;
     accessTokenUrl := accessTokenUrl this;
     userInfoUrl := userInfoUrl this;
     stateCookieValue := cookies (ctx this) !! stateCookieName |}.

(** [buildKeycloakUrl(action)].  The two non-null assertions are
    erased at run time: a missing URL makes the method call fail, a
    missing realm is converted to text. *)
Definition buildKeycloakUrl (config : KeycloakConfig) (action : string) : result string :=
  match Config.keycloakUrl config with
  | None => inl (TypeError "Cannot read properties of undefined (reading 'replace')")
  | Some url =>
      inr (replace (replace url "{{realm}}" (ToString (Config.realm config)))
             "{{action}}" action)
  end.

Definition realm_missing : string :=
  "Keycloak driver needs the " +:+ dq +:+ "realm" +:+ dq +:+ " to be defined".
Definition keycloakUrl_missing : string :=
  "Keycloak driver needs the " +:+ dq +:+ "keycloakUrl" +:+ dq +:+ " to be defined".

(** [new KeycloakDriver(ctx, config)]: the base constructor and the
    field initialisers, the two guards, the three derived URLs, then
    [loadState]. *)
Definition constructor (ctx : HttpContext) (config : KeycloakConfig) : result KeycloakDriver :=
  if negb (truthy (optional (Config.realm config))) then
    inl (JsError realm_missing)
  else if negb (truthy (optional (Config.keycloakUrl config))) then
    inl (JsError keycloakUrl_missing)
  else
    match buildKeycloakUrl config "auth",
          buildKeycloakUrl config "token",
          buildKeycloakUrl config "userinfo" with
    | inr authorize, inr accessToken, inr userInfo =>
        inr (loadState {| ctx := ctx; config := config;
                          authorizeUrl := authorize;
                          accessTokenUrl := accessToken;
                          userInfoUrl := userInfo;
                          stateCookieValue := None |})
    | inl e, _, _ | inr _, inl e, _ | inr _, inr _, inl e => inl e
    end.

(** [accessDenied()]. *)
Definition accessDenied (this : KeycloakDriver) : bool :=
  match input (ctx this) "error" with
  | VStr s => String.eqb s "user_denied"
  | _ => false
  end.

(** [KeycloakService(config)]: the factory referenced from the
    application configuration. *)
Definition KeycloakService (config : KeycloakConfig) : HttpContext -> result KeycloakDriver :=
  fun ctx => constructor ctx config.

(** ** Tokens and users *)

Module AccessToken.
(** [KeycloakAccessToken]. *)
Record t : Type := { token : string; type : string }.
End AccessToken.

Abbreviation KeycloakAccessToken := AccessToken.t.

Module User.
(** [KeycloakUserContract]. *)
Record t : Type := {
  id : value;
  nickName : value;
  lastName : value;
  firstName : value;
  name : value;
  email : value;
  avatarUrl : value;
  emailVerificationState : string;
  original : value;
  token : KeycloakAccessToken
}.
End User.

Abbreviation KeycloakUserContract := User.t.

(** Reading a property, for the values [JSON.parse] produces and the
    seven keys the driver reads.  An object answers with its own
    property; [null] and [undefined] have none to read; a string
    inherits [sub] from its prototype; a function has a [name]. *)
Definition member (v : value) (key : string) : result value :=
  match v with
  | VUndefined =>
      inl (TypeError ("Cannot read properties of undefined (reading '" +:+ key +:+ "')"))
  | VNull =>
      inl (TypeError ("Cannot read properties of null (reading '" +:+ key +:+ "')"))
  | VObj props => inr (default VUndefined (props !! key))
  | VStr _ => inr (if String.eqb key "sub" then VBuiltin "sub" else VUndefined)
  | VBuiltin f => inr (if String.eqb key "name" then VStr f else VUndefined)
  | VBool _ | VNum _ | VArr _ => inr VUndefined
  end.

(** ** Effects

    An asynchronous method is a function of the history of what has
    happened so far and returns its outcome together with the extended
    history.  The history records each customizer invocation, with the
    request as it stands when the customizer receives it, and each
    call of [request.get()] or [request.post()], with the request as
    it stands at the call; what the HTTP client then does on the wire
    is its own. *)

Inductive Event : Type :=
  | Invoked (request : ApiRequest)
  | SentGet (request : ApiRequest)
  | SentPost (request : ApiRequest).

Definition M (A : Type) : Type := list Event -> result A * list Event.

#[global] Instance M_ret : MRet M := fun A a history => (inr a, history).

#[global] Instance M_bind : MBind M := fun A B k m history =>
  match m history with
  | (inr a, history') => k a history'
  | (inl e, history') => (inl e, history')
  end.

Definition lift {A : Type} (r : result A) : M A := fun history => (r, history).

(** [callback(request)] as a step of a method: nothing catches what
    the callback throws. *)
Definition invoke (callback : Callback) (request : ApiRequest) : M ApiRequest :=
  fun history => (call callback request, (history ++ [Invoked request])%list).

Section Driver.

(** What the identity provider answers to a GET, given the history. *)
Variable respond : list Event -> ApiRequest -> result value.

(** The inherited [accessToken(callback)]: the authorization-code
    exchange performed by the framework's base class. *)
Variable accessToken : KeycloakDriver -> option Callback -> M KeycloakAccessToken.

(** [request.get()]. *)
Definition get (request : ApiRequest) : M value :=
  fun history => (respond history request, (history ++ [SentGet request])%list).

(** [getAuthenticatedRequest(url, token)]. *)
Definition getAuthenticatedRequest (url token : string) : ApiRequest :=
  let request := httpClient url in
  let request := header "Authorization" (VStr ("Bearer " +:+ token)) request in
  let request := header "Accept" (VStr "application/json") request in
  let request := parseAs AsJson request in
  request.

(** [getUserInfo(token, callback)]. *)
Definition getUserInfo (this : KeycloakDriver) (token : string)
    (callback : option Callback) : M KeycloakUserContract :=
  let request :=
    getAuthenticatedRequest
      (nullish (Config.userInfoUrl (config this)) (userInfoUrl this)) token in
  request ← match callback with
            | Some f => invoke f request
            | None => mret request
            end;
  user ← get request;
  sub ← lift (member user "sub");
  preferred_username ← lift (member user "preferred_username");
  family_name ← lift (member user "family_name");
  given_name ← lift (member user "given_name");
  name ← lift (member user "name");
  email ← lift (member user "email");
  email_verified ← lift (member user "email_verified");
  mret {| User.id := sub;
          User.nickName := preferred_username;
          User.lastName := family_name;
          User.firstName := given_name;
          User.name := name;
          User.email := email;
          User.avatarUrl := VNull;
          User.emailVerificationState :=
            if truthy email_verified then "verified" else "unverified";
          User.original := user;
          User.token := {| AccessToken.type := "bearer"; AccessToken.token := token |} |}.

(** [user(callback)]. *)
Definition user (this : KeycloakDriver) (callback : option Callback)
    : M KeycloakUserContract :=
  tok ← accessToken this callback;
  getUserInfo this (AccessToken.token tok) callback.

(** [userFromToken(accessToken, callback)]. *)
Definition userFromToken (this : KeycloakDriver) (token : string)
    (callback : option Callback) : M KeycloakUserContract :=
  getUserInfo this token callback.

End Driver.

(** ** Observations on a run *)

(** The request as the driver configures it, before any customizer:
    the URL, the two headers and the parsing mode. *)
Definition configured (this : KeycloakDriver) (token : string) : ApiRequest :=
  {| baseUrl := nullish (Config.userInfoUrl (config this)) (userInfoUrl this);
     params := ∅;
     headers := <["Accept" := VStr "application/json"]>
                  (<["Authorization" := VStr ("Bearer " +:+ token)]> ∅);
     fields := ∅;
     requestType := SendUrlencoded;
     responseType := AsJson |}.

(** The request as it leaves, when the customizer, if there is one,
    returns; what the customizer throws otherwise. *)
Definition outgoing (this : KeycloakDriver) (token : string)
    (callback : option Callback) : result ApiRequest :=
  match callback with
  | Some f => call f (configured this token)
  | None => inr (configured this token)
  end.

(** The history once the customizer, if there is one, has run. *)
Definition asked (this : KeycloakDriver) (token : string)
    (callback : option Callback) (history : list Event) : list Event :=
  match callback with
  | Some f => (history ++ [Invoked (configured this token)])%list
  | None => history
  end.

(** The GET requests of a history, oldest first. *)
Definition gets (history : list Event) : list ApiRequest :=
  omap (fun e => match e with SentGet request => Some request | _ => None end) history.

(** A customizer that, called on [request], returns and leaves the
    two headers set by the driver as it finds them; no customizer at
    all does so too. *)
Definition keeps_headers (callback : option Callback) (request : ApiRequest) : Prop :=
  match callback with
  | Some f =>
      exists after,
        f request = inr after /\
        headers after !! "Authorization" = headers request !! "Authorization" /\
        headers after !! "Accept" = headers request !! "Accept"
  | None => True
  end.

(** The record built from an object payload. *)
Definition mapped (props : gmap string value) (token : string) : KeycloakUserContract :=
  {| User.id := default VUndefined (props !! "sub");
     User.nickName := default VUndefined (props !! "preferred_username");
     User.lastName := default VUndefined (props !! "family_name");
     User.firstName := default VUndefined (props !! "given_name");
     User.name := default VUndefined (props !! "name");
     User.email := default VUndefined (props !! "email");
     User.avatarUrl := VNull;
     User.emailVerificationState :=
       if truthy (default VUndefined (props !! "email_verified"))
       then "verified" else "unverified";
     User.original := VObj props;
     User.token := {| AccessToken.type := "bearer"; AccessToken.token := token |} |}.

(** [userFromToken] in the words of the specification: [user] with the
    code exchange skipped, the caller's token taking the place of the
    exchanged one. *)
Definition userFromToken_spec (respond : list Event -> ApiRequest -> result value)
    (this : KeycloakDriver) (token : string) (callback : option Callback)
    : M KeycloakUserContract :=
  user respond
    (fun _ _ => mret {| AccessToken.token := token; AccessToken.type := "bearer" |})
    this callback.

(** ** Sample data *)

Definition template : string :=
  "https://host/realms/{{realm}}/protocol/openid-connect/{{action}}".

Definition sample_ctx : HttpContext :=
  {| request_data := {[ "code" := VStr "c0de"; "state" := VStr "xyz" ]};
     cookies := {[ stateCookieName := "xyz" ]} |}.

Definition sample_config : KeycloakConfig :=
  {| Config.driver := "keycloak";
     Config.keycloakUrl := Some template;
     Config.realm := Some "r1";
     Config.clientId := "app";
     Config.clientSecret := "secret";
     Config.callbackUrl := "https://app.example/keycloak/callback";
     Config.authorizeUrl := None;
     Config.accessTokenUrl := None;
     Config.userInfoUrl := None |}.

(** The sample configuration with other values for the realm, the URL
    template and the three overrides. *)
Definition with_fields (realm keycloakUrl authorize accessToken userInfo : option string)
    : KeycloakConfig :=
  {| Config.driver := Config.driver sample_config;
     Config.keycloakUrl := keycloakUrl;
     Config.realm := realm;
     Config.clientId := Config.clientId sample_config;
     Config.clientSecret := Config.clientSecret sample_config;
     Config.callbackUrl := Config.callbackUrl sample_config;
     Config.authorizeUrl := authorize;
     Config.accessTokenUrl := accessToken;
     Config.userInfoUrl := userInfo |}.

Definition override_config : KeycloakConfig :=
  with_fields (Some "r1") (Some template)
    (Some "https://sso.example/authorize")
    (Some "https://sso.example/token")
    (Some "https://sso.example/me").

Definition no_realm_config : KeycloakConfig :=
  with_fields None (Some template) None None None.

Definition no_url_config : KeycloakConfig :=
  with_fields (Some "r1") None None None None.

Definition empty_realm_config : KeycloakConfig :=
  with_fields (Some "") (Some template) None None None.

Definition sample_driver : KeycloakDriver :=
  {| ctx := {| request_data := request_data sample_ctx; cookies := ∅ |};
     config := sample_config;
     authorizeUrl := "https://host/realms/r1/protocol/openid-connect/auth";
     accessTokenUrl := "https://host/realms/r1/protocol/openid-connect/token";
     userInfoUrl := "https://host/realms/r1/protocol/openid-connect/userinfo";
     stateCookieValue := Some "xyz" |}.

(** The user-info payload of the specification's example. *)
Definition bob : gmap string value :=
  {[ "sub" := VStr "u1";
     "preferred_username" := VStr "bob";
     "family_name" := VStr "Smith";
     "given_name" := VStr "Bob";
     "name" := VStr "Bob Smith";
     "email" := VStr "b@x.com";
     "email_verified" := VBool true ]}.

(** A provider that answers every GET with that payload. *)
Definition bob_provider : list Event -> ApiRequest -> result value :=
  fun _ _ => inr (VObj bob).

(** A code exchange that posts to the token endpoint, the customizer
    applied to the token request as well, and obtains the token [tok]. *)
Definition sample_exchange : KeycloakDriver -> option Callback -> M KeycloakAccessToken :=
  fun this callback history =>
    let request := httpClient (accessTokenUrl this) in
    match callback with
    | Some f =>
        match call f request with
        | inr sent =>
            (inr {| AccessToken.token := "tok"; AccessToken.type := "bearer" |},
             (history ++ [Invoked request; SentPost sent])%list)
        | inl e => (inl e, (history ++ [Invoked request])%list)
        end
    | None =>
        (inr {| AccessToken.token := "tok"; AccessToken.type := "bearer" |},
         (history ++ [SentPost request])%list)
    end.

(** A customizer that replaces the [Authorization] header. *)
Definition basic_auth : Callback :=
  fun request => inr (header "Authorization" (VStr "Basic Zm9v") request).

(** A customizer that adds a query parameter. *)
Definition with_locale : Callback :=
  fun request => inr (param "ui_locales" (VStr "de") request).

(** A customizer that sets an [Authorization] header only on a request
    that has none. *)
Definition basic_if_missing : Callback :=
  fun request =>
    match headers request !! "Authorization" with
    | Some _ => inr request
    | None => inr (header "Authorization" (VStr "Basic Zm9v") request)
    end.

(** A customizer that throws. *)
Definition failing_customizer : Callback :=
  fun _ => inl (JsError "customizer failed").

(** An optional configuration string that the guards of the
    constructor reject: not supplied, or supplied empty. *)
Definition undefined_or_empty (o : option string) : Prop :=
  o = None \/ o = Some "".

(** ** Registration

    [KeycloakProvider.boot]: the provider resolves the Ally manager
    from the application container and registers the driver under the
    name [keycloak]. *)

(** The callback given to [Ally.extend]; its first two arguments are
    ignored by this provider. *)
Definition ExtendCallback : Type :=
  value -> value -> KeycloakConfig -> HttpContext -> result KeycloakDriver.

(** Modelled from the spec: the framework's plugin registry, which is
    not part of this repository; [extend] registers a factory under a
    provider identifier, a later registration taking the place of an
    earlier one. *)
Definition extend (name : string) (callback : ExtendCallback)
    (Ally : gmap string ExtendCallback) : gmap string ExtendCallback :=
  <[name := callback]> Ally.

(** [boot()], given the container's [make]; the outcome is the manager
    as the provider leaves it. *)
Definition boot (make : string -> result (gmap string ExtendCallback))
    : result (gmap string ExtendCallback) :=
  match make "Adonis/Addons/Ally" with
  | inl e => inl e
  | inr Ally =>
      inr (extend "keycloak" (fun _ _ config ctx => constructor ctx config) Ally)
  end.

(** ** More sample data *)

(** A provider that cannot be reached. *)
Definition unreachable_provider : list Event -> ApiRequest -> result value :=
  fun _ _ => inl (Rejected (VStr "ECONNREFUSED")).

(** A provider that answers with the JSON text [null]. *)
Definition null_provider : list Event -> ApiRequest -> result value :=
  fun _ _ => inr VNull.

(** A payload whose [email_verified] is a string and which has no
    [email]. *)
Definition loose_payload : gmap string value :=
  {[ "sub" := VStr "u2"; "email_verified" := VStr "false" ]}.

Definition loose_provider : list Event -> ApiRequest -> result value :=
  fun _ _ => inr (VObj loose_payload).

(** A code exchange that the provider refuses. *)
Definition refused_exchange : KeycloakDriver -> option Callback -> M KeycloakAccessToken :=
  fun this callback history =>
    (inl (Rejected (VStr "invalid_grant")),
     (history ++ [SentPost (httpClient (accessTokenUrl this))])%list).

(** A container in which the Ally manager is bound, with one driver
    registered already. *)
Definition sample_make : string -> result (gmap string ExtendCallback) :=
  fun namespace =>
    if String.eqb namespace "Adonis/Addons/Ally"
    then inr {[ "other" := fun _ _ _ _ => inl (JsError "not this driver") ]}
    else inl (JsError "unknown binding").

(** * Properties *)

(** ** Searching and replacing *)

Lemma append_cons c s t : String c s +:+ t = String c (s +:+ t).
Proof. reflexivity. Qed.

Lemma append_nil_l s : "" +:+ s = s.
Proof. reflexivity. Qed.

Ltac norm_append := rewrite ?append_cons, ?append_nil_l in *.

Lemma strip_prefix_Some p s r :
  strip_prefix p s = Some r -> s = p +:+ r.
Proof.
  revert s. induction p as [|a p IH]; intros [|b s]; simpl; norm_append.
  - by intros [= <-].
  - by intros [= <-].
  - done.
  - destruct (Ascii.eqb_spec a b) as [->|]; [|done].
    intros H. f_equal. by apply IH.
Qed.

Lemma strip_prefix_app p r : strip_prefix p (p +:+ r) = Some r.
Proof.
  induction p as [|a p IH]; norm_append; simpl; [done|].
  by rewrite Ascii.eqb_refl.
Qed.

Lemma strip_prefix_None p s r :
  strip_prefix p s = None -> s <> p +:+ r.
Proof. intros H ->. by rewrite strip_prefix_app in H. Qed.

(** The pair found by [find_first] splits the text around the pattern. *)
Lemma find_first_split search s preceding following :
  find_first search s = Some (preceding, following) ->
  s = preceding +:+ search +:+ following.
Proof.
  revert preceding. induction s as [|c s IH]; intros preceding; simpl.
  - destruct (strip_prefix search "") eqn:E; [|done].
    intros [= <- <-]. norm_append. by apply strip_prefix_Some.
  - destruct (strip_prefix search (String c s)) eqn:E.
    + intros [= <- <-]. norm_append. by apply strip_prefix_Some.
    + destruct (find_first search s) as [[pre post]|] eqn:F; [|done].
      intros [= <- <-]. norm_append. f_equal. by apply IH.
Qed.

(** It is the first occurrence: no occurrence starts further left. *)
Lemma find_first_leftmost search s preceding following pre post :
  find_first search s = Some (preceding, following) ->
  s = pre +:+ search +:+ post ->
  (String.length preceding <= String.length pre)%nat.
Proof.
  revert preceding pre. induction s as [|c s IH]; intros preceding pre; simpl.
  - destruct (strip_prefix search "") eqn:E; [|done].
    intros [= <- <-] _. simpl. lia.
  - destruct (strip_prefix search (String c s)) eqn:E.
    + intros [= <- <-] _. simpl. lia.
    + destruct (find_first search s) as [[p1 p2]|] eqn:F; [|done].
      intros [= <- <-] Hs. destruct pre as [|c' pre]; norm_append.
      * by apply strip_prefix_None with (r := post) in E.
      * injection Hs as -> ->. simpl. apply le_n_S. by eapply IH.
Qed.

(** When nothing is found the pattern does not occur. *)
Lemma find_first_None search s pre post :
  find_first search s = None -> s <> pre +:+ search +:+ post.
Proof.
  revert pre. induction s as [|c s IH]; intros pre; simpl.
  - destruct (strip_prefix search "") eqn:E; [done|]. intros _.
    destruct pre; norm_append; [|done]. by apply strip_prefix_None.
  - destruct (strip_prefix search (String c s)) eqn:E; [done|].
    destruct (find_first search s) as [[p1 p2]|] eqn:F; [done|]. intros _.
    destruct pre as [|c' pre]; norm_append.
    + by apply strip_prefix_None.
    + intros [= -> Hs]. by eapply IH.
Qed.

Lemma find_first_cons search c s :
  find_first search (String c s) =
  match strip_prefix search (String c s) with
  | Some following => Some ("", following)
  | None =>
      match find_first search s with
      | Some (preceding, following) => Some (String c preceding, following)
      | None => None
      end
  end.
Proof. reflexivity. Qed.

Lemma strip_prefix_char a c s :
  strip_prefix (String a "") (String c s) = if Ascii.eqb a c then Some s else None.
Proof. reflexivity. Qed.

(** Every occurrence is found. *)
Lemma find_first_occurs search pre post :
  is_Some (find_first search (pre +:+ search +:+ post)).
Proof.
  destruct (find_first search (pre +:+ search +:+ post)) eqn:E; [done|].
  by apply find_first_None with (pre := pre) (post := post) in E.
Qed.

(** A replacement text without a dollar sign is inserted as it is. *)
Lemma includes_dollar_cons c s :
  includes (String c s) "$" = false ->
  c <> "$"%char /\ includes s "$" = false.
Proof.
  unfold includes. rewrite !bool_decide_eq_false.
  rewrite find_first_cons, strip_prefix_char.
  destruct (Ascii.eqb_spec "$" c) as [<-|Hc].
  - intros []. eauto.
  - intros H. split; [congruence|].
    intros [[p q] Hq]. apply H. rewrite Hq. eauto.
Qed.

Lemma GetSubstitution_literal matched preceding following template :
  includes template "$" = false ->
  GetSubstitution matched preceding following template = template.
Proof.
  induction template as [|c rest IH]; [done|].
  intros [Hc Hrest]%includes_dollar_cons. cbn [GetSubstitution].
  destruct (Ascii.eqb_spec c "$"); [done|]. by rewrite IH.
Qed.

Lemma replace_literal s search replaceValue preceding following :
  includes replaceValue "$" = false ->
  find_first search s = Some (preceding, following) ->
  replace s search replaceValue = preceding +:+ replaceValue +:+ following.
Proof.
  intros Hfree Hfind. unfold replace. rewrite Hfind.
  by rewrite GetSubstitution_literal.
Qed.

Lemma replace_absent s search replaceValue :
  find_first search s = None -> replace s search replaceValue = s.
Proof. intros H. unfold replace. by rewrite H. Qed.

(** ** Construction *)

Lemma falsy_optional o :
  truthy (optional o) = false <-> undefined_or_empty o.
Proof.
  unfold undefined_or_empty. destruct o as [s|]; simpl.
  - rewrite negb_false_iff, String.eqb_eq. split.
    + intros ->. by right.
    + by intros [|[= ->]].
  - split; [by left|done].
Qed.

Lemma truthy_optional o :
  truthy (optional o) = true <-> exists s, o = Some s /\ s <> "".
Proof.
  destruct o as [s|]; simpl.
  - rewrite negb_true_iff, String.eqb_neq. split.
    + intros H. by exists s.
    + by intros (? & [= <-] & H).
  - split; [done|]. by intros (? & ? & _).
Qed.

(** What a successful construction has computed. *)
Lemma constructor_inr ctx cfg this :
  constructor ctx cfg = inr this ->
  exists url realm,
    Config.keycloakUrl cfg = Some url /\ Config.realm cfg = Some realm /\
    this = loadState
      {| ctx := ctx; config := cfg;
         authorizeUrl := replace (replace url "{{realm}}" realm) "{{action}}" "auth";
         accessTokenUrl := replace (replace url "{{realm}}" realm) "{{action}}" "token";
         userInfoUrl := replace (replace url "{{realm}}" realm) "{{action}}" "userinfo";
         stateCookieValue := None |}.
Proof.
  unfold constructor, buildKeycloakUrl.
  destruct (Config.realm cfg) as [realm|]; [|done].
  destruct (Config.keycloakUrl cfg) as [url|].
  - destruct (negb _); [done|]. destruct (negb _); [done|].
    intros [= <-]. by exists url, realm.
  - destruct (negb _); [done|]. done.
Qed.

(** C1, as stated, fails: with all three overrides supplied, the
    constructor still stores the URLs derived from the template in the
    three endpoint fields; none of them is the supplied override. *)
Lemma constructor_override_counterexample :
  Config.authorizeUrl override_config = Some "https://sso.example/authorize" /\
  Config.accessTokenUrl override_config = Some "https://sso.example/token" /\
  Config.userInfoUrl override_config = Some "https://sso.example/me" /\
  exists this,
    constructor sample_ctx override_config = inr this /\
    authorizeUrl this = "https://host/realms/r1/protocol/openid-connect/auth" /\
    accessTokenUrl this = "https://host/realms/r1/protocol/openid-connect/token" /\
    userInfoUrl this = "https://host/realms/r1/protocol/openid-connect/userinfo" /\
    authorizeUrl this <> "https://sso.example/authorize" /\
    accessTokenUrl this <> "https://sso.example/token" /\
    userInfoUrl this <> "https://sso.example/me".
Proof.
  split; [reflexivity|]. split; [reflexivity|]. split; [reflexivity|].
  eexists. split; [reflexivity|].
  repeat split; try reflexivity; vm_compute; discriminate.
Qed.

(** C1, amended: every successful construction stores in the three
    endpoint fields the URLs derived from the [keycloakUrl] template,
    the realm substituted for the realm placeholder and [auth],
    [token], [userinfo] for the action placeholder, whether or not the
    configuration supplies overrides; the configuration, overrides
    included, is kept unchanged in the driver. *)
Theorem constructor_derives_endpoints ctx cfg this :
  constructor ctx cfg = inr this ->
  exists url realm,
    Config.keycloakUrl cfg = Some url /\ Config.realm cfg = Some realm /\
    authorizeUrl this = replace (replace url "{{realm}}" realm) "{{action}}" "auth" /\
    accessTokenUrl this = replace (replace url "{{realm}}" realm) "{{action}}" "token" /\
    userInfoUrl this = replace (replace url "{{realm}}" realm) "{{action}}" "userinfo" /\
    config this = cfg.
Proof.
  intros (url & realm & Hurl & Hrealm & ->)%constructor_inr.
  exists url, realm. by repeat split.
Qed.

Lemma constructor_derives_endpoints_witness :
  exists this,
    constructor sample_ctx override_config = inr this /\
    exists url realm,
      Config.keycloakUrl override_config = Some url /\
      Config.realm override_config = Some realm /\
      authorizeUrl this = replace (replace url "{{realm}}" realm) "{{action}}" "auth" /\
      accessTokenUrl this = replace (replace url "{{realm}}" realm) "{{action}}" "token" /\
      userInfoUrl this = replace (replace url "{{realm}}" realm) "{{action}}" "userinfo" /\
      config this = override_config.
Proof.
  eexists. split; [reflexivity|].
  apply (constructor_derives_endpoints sample_ctx override_config). reflexivity.
Defined.

(** C2: with the template of the specification and realm [r1], the
    three derived URLs are the template with the realm placeholder
    replaced by [r1] and the action placeholder by [auth], [token] and
    [userinfo]. *)
Theorem constructor_template_r1 ctx cfg :
  Config.keycloakUrl cfg =
    Some "https://host/realms/{{realm}}/protocol/openid-connect/{{action}}" ->
  Config.realm cfg = Some "r1" ->
  exists this,
    constructor ctx cfg = inr this /\
    authorizeUrl this = "https://host/realms/r1/protocol/openid-connect/auth" /\
    accessTokenUrl this = "https://host/realms/r1/protocol/openid-connect/token" /\
    userInfoUrl this = "https://host/realms/r1/protocol/openid-connect/userinfo".
Proof.
  intros Hurl Hrealm. unfold constructor, buildKeycloakUrl.
  rewrite Hurl, Hrealm. eexists. split; [reflexivity|].
  repeat split; reflexivity.
Qed.

Lemma constructor_template_r1_witness :
  exists this,
    constructor sample_ctx sample_config = inr this /\
    authorizeUrl this = "https://host/realms/r1/protocol/openid-connect/auth" /\
    accessTokenUrl this = "https://host/realms/r1/protocol/openid-connect/token" /\
    userInfoUrl this = "https://host/realms/r1/protocol/openid-connect/userinfo".
Proof.
  apply (constructor_template_r1 sample_ctx sample_config); reflexivity.
Defined.

(** C3, as stated, fails: a realm that is present but empty is rejected
    like an absent one, although both fields are present. *)
Lemma constructor_empty_realm_counterexample :
  Config.realm empty_realm_config = Some "" /\
  Config.keycloakUrl empty_realm_config = Some template /\
  constructor sample_ctx empty_realm_config = inl (JsError realm_missing).
Proof. repeat split. Qed.

(** C3, amended: a realm that is absent or empty makes the constructor
    throw the error that names [realm]; with a non-empty realm, a
    [keycloakUrl] that is absent or empty makes it throw the error that
    names [keycloakUrl]; no driver is produced in either case, and
    construction succeeds when both are present and non-empty. *)
Theorem constructor_guards ctx cfg :
  (undefined_or_empty (Config.realm cfg) ->
     constructor ctx cfg = inl (JsError realm_missing)) /\
  (~ undefined_or_empty (Config.realm cfg) ->
   undefined_or_empty (Config.keycloakUrl cfg) ->
     constructor ctx cfg = inl (JsError keycloakUrl_missing)) /\
  (~ undefined_or_empty (Config.realm cfg) ->
   ~ undefined_or_empty (Config.keycloakUrl cfg) ->
     exists this, constructor ctx cfg = inr this) /\
  includes realm_missing (dq +:+ "realm" +:+ dq) = true /\
  includes keycloakUrl_missing (dq +:+ "keycloakUrl" +:+ dq) = true.
Proof.
  unfold constructor.
  destruct (truthy (optional (Config.realm cfg))) eqn:Hrealm;
    destruct (truthy (optional (Config.keycloakUrl cfg))) eqn:Hurl; simpl.
  - apply truthy_optional in Hrealm as (realm & Er & Hr).
    apply truthy_optional in Hurl as (url & Eu & Hu).
    unfold buildKeycloakUrl. rewrite Er, Eu.
    split; [|split; [|split; [|done]]].
    + intros [|]; congruence.
    + intros _ [|]; congruence.
    + intros _ _. by eexists.
  - apply falsy_optional in Hurl.
    apply truthy_optional in Hrealm as (realm & Er & Hr).
    split; [|split; [|split; [|done]]].
    + rewrite Er. intros [|]; congruence.
    + done.
    + done.
  - apply falsy_optional in Hrealm. by repeat split.
  - apply falsy_optional in Hrealm. by repeat split.
Qed.

Lemma constructor_guards_witness :
  constructor sample_ctx no_realm_config = inl (JsError realm_missing) /\
  constructor sample_ctx no_url_config = inl (JsError keycloakUrl_missing) /\
  exists this, constructor sample_ctx sample_config = inr this.
Proof.
  split; [|split].
  - apply (constructor_guards sample_ctx no_realm_config). by left.
  - apply (constructor_guards sample_ctx no_url_config).
    + intros [|]; discriminate.
    + by left.
  - apply (constructor_guards sample_ctx sample_config);
      intros [|]; discriminate.
Defined.

(** ** Denied authorization *)

(** C4: [accessDenied()] is true exactly when the request's [error]
    input is the string [user_denied]; any other value, and an absent
    parameter, give false. *)
Theorem accessDenied_iff this :
  accessDenied this = true <->
  request_data (ctx this) !! "error" = Some (VStr "user_denied").
Proof.
  unfold accessDenied, input.
  destruct (request_data (ctx this) !! "error") as [v|]; simpl.
  - destruct v; try (split; [discriminate|intros [= ]]).
    rewrite String.eqb_eq. split; [by intros ->|by intros [= ->]].
  - split; discriminate.
Qed.


(** ** The user-info fetch *)

Section Fetch.

Variable respond : list Event -> ApiRequest -> result value.
Variable accessToken : KeycloakDriver -> option Callback -> M KeycloakAccessToken.

Lemma getAuthenticatedRequest_configured this token :
  getAuthenticatedRequest
    (nullish (Config.userInfoUrl (config this)) (userInfoUrl this)) token
  = configured this token.
Proof. reflexivity. Qed.

(** The run of [getUserInfo] up to the answer of the provider, when
    the customizer, if there is one, returns. *)
Lemma getUserInfo_sent this token callback history request :
  outgoing this token callback = inr request ->
  getUserInfo respond this token callback history
  = ((user ← lift (respond (asked this token callback history) request);
      sub ← lift (member user "sub");
      preferred_username ← lift (member user "preferred_username");
      family_name ← lift (member user "family_name");
      given_name ← lift (member user "given_name");
      name ← lift (member user "name");
      email ← lift (member user "email");
      email_verified ← lift (member user "email_verified");
      mret {| User.id := sub;
              User.nickName := preferred_username;
              User.lastName := family_name;
              User.firstName := given_name;
              User.name := name;
              User.email := email;
              User.avatarUrl := VNull;
              User.emailVerificationState :=
                if truthy email_verified then "verified" else "unverified";
              User.original := user;
              User.token :=
                {| AccessToken.type := "bearer"; AccessToken.token := token |} |})
       : M KeycloakUserContract)
      (asked this token callback history ++ [SentGet request])%list.
Proof.
  intros Hout. unfold getUserInfo. rewrite getAuthenticatedRequest_configured.
  unfold asked, outgoing in *. unfold mbind, M_bind, invoke, get, lift, mret, M_ret.
  destruct callback as [f|].
  - by rewrite Hout.
  - by injection Hout as <-.
Qed.

(** When the customizer throws, the run ends there. *)
Lemma getUserInfo_thrown this token callback history e :
  outgoing this token callback = inl e ->
  getUserInfo respond this token callback history
  = (inl e, asked this token callback history).
Proof.
  intros Hout. unfold getUserInfo. rewrite getAuthenticatedRequest_configured.
  unfold asked, outgoing in *. unfold mbind, M_bind, invoke.
  destruct callback as [f|]; [|done]. by rewrite Hout.
Qed.

(** When the request leaves, the history is extended by the customizer
    invocation, if there is a customizer, and by the one GET. *)
Lemma getUserInfo_history this token callback history request :
  outgoing this token callback = inr request ->
  snd (getUserInfo respond this token callback history)
  = (asked this token callback history ++ [SentGet request])%list.
Proof.
  intros Hout. rewrite (getUserInfo_sent _ _ _ _ _ Hout).
  unfold mbind, M_bind, lift, mret, M_ret.
  destruct (respond _ _) as [e|payload]; [done|].
  by destruct payload as [| | | | s | | | g]; cbn;
    repeat match goal with |- context [String.eqb ?a ?b] =>
      destruct (String.eqb a b) end.
Qed.

(** An object payload is mapped field by field. *)
Lemma getUserInfo_object this token callback history request props :
  outgoing this token callback = inr request ->
  respond (asked this token callback history) request = inr (VObj props) ->
  fst (getUserInfo respond this token callback history) = inr (mapped props token).
Proof.
  intros Hout Hpayload. rewrite (getUserInfo_sent _ _ _ _ _ Hout).
  unfold mbind, M_bind, lift. by rewrite Hpayload.
Qed.

(** A failed fetch is passed on as it is. *)
Lemma getUserInfo_failure this token callback history request e :
  outgoing this token callback = inr request ->
  respond (asked this token callback history) request = inl e ->
  fst (getUserInfo respond this token callback history) = inl e.
Proof.
  intros Hout Hpayload. rewrite (getUserInfo_sent _ _ _ _ _ Hout).
  unfold mbind, M_bind, lift. by rewrite Hpayload.
Qed.

(** The payload [null] has no field to read. *)
Lemma getUserInfo_null this token callback history request :
  outgoing this token callback = inr request ->
  respond (asked this token callback history) request = inr VNull ->
  fst (getUserInfo respond this token callback history)
  = inl (TypeError "Cannot read properties of null (reading 'sub')").
Proof.
  intros Hout Hpayload. rewrite (getUserInfo_sent _ _ _ _ _ Hout).
  unfold mbind, M_bind, lift. by rewrite Hpayload.
Qed.

(** After a successful code exchange [user] continues as
    [getUserInfo] with the exchanged token. *)
Lemma user_after_exchange this callback history tok history' :
  accessToken this callback history = (inr tok, history') ->
  user respond accessToken this callback history
  = getUserInfo respond this (AccessToken.token tok) callback history'.
Proof. intros H. unfold user, mbind, M_bind at 1. by rewrite H. Qed.

(** A failed code exchange ends [user] before any fetch. *)
Lemma user_exchange_failure this callback history e history' :
  accessToken this callback history = (inl e, history') ->
  user respond accessToken this callback history = (inl e, history').
Proof. intros H. unfold user, mbind, M_bind at 1. by rewrite H. Qed.

Lemma gets_app h1 h2 : gets (h1 ++ h2) = (gets h1 ++ gets h2)%list.
Proof. apply omap_app. Qed.

Lemma gets_asked this token callback history :
  gets (asked this token callback history) = gets history.
Proof.
  destruct callback; [|done]. cbn. rewrite gets_app. cbn. by rewrite app_nil_r.
Qed.

(** Exactly one GET is added when the request leaves. *)
Lemma getUserInfo_gets this token callback history request :
  outgoing this token callback = inr request ->
  gets (snd (getUserInfo respond this token callback history))
  = (gets history ++ [request])%list.
Proof.
  intros Hout. by rewrite (getUserInfo_history _ _ _ _ _ Hout), gets_app, gets_asked.
Qed.

(** None is added when the customizer throws. *)
Lemma getUserInfo_gets_thrown this token callback history e :
  outgoing this token callback = inl e ->
  gets (snd (getUserInfo respond this token callback history)) = gets history.
Proof.
  intros Hout. rewrite (getUserInfo_thrown _ _ _ _ _ Hout). apply gets_asked.
Qed.

End Fetch.

Lemma call_inr f request sent :
  call f request = inr sent ->
  exists after,
    f request = inr after /\
    sent = {| baseUrl := baseUrl request; params := params after;
              headers := headers after; fields := fields after;
              requestType := requestType after; responseType := responseType after |}.
Proof.
  unfold call. destruct (f request) as [e|after]; [done|].
  intros [= <-]. by exists after.
Qed.

Lemma outgoing_baseUrl this token callback request :
  outgoing this token callback = inr request ->
  baseUrl request = nullish (Config.userInfoUrl (config this)) (userInfoUrl this).
Proof.
  destruct callback as [f|]; cbn [outgoing].
  - by intros (after & _ & ->)%call_inr.
  - by intros [= <-].
Qed.

Lemma configured_Authorization this token :
  headers (configured this token) !! "Authorization" = Some (VStr ("Bearer " +:+ token)).
Proof.
  unfold configured; cbn [headers].
  rewrite lookup_insert_ne by done. apply lookup_insert_eq.
Qed.

Lemma configured_Accept this token :
  headers (configured this token) !! "Accept" = Some (VStr "application/json").
Proof. unfold configured; cbn [headers]. apply lookup_insert_eq. Qed.

(** C5, as stated, fails: the JSON value [null] is a payload for which
    no record is returned; reading its first field ends [userFromToken]
    and [user] with a [TypeError]. *)
Lemma user_record_null_counterexample :
  fst (userFromToken null_provider sample_driver "tok" None [])
    = inl (TypeError "Cannot read properties of null (reading 'sub')") /\
  fst (user null_provider sample_exchange sample_driver None [])
    = inl (TypeError "Cannot read properties of null (reading 'sub')").
Proof. split; reflexivity. Qed.

(** C5, amended: for every payload that is a JSON object, whenever the
    request leaves, [userFromToken], and [user] after an exchange that
    yields the same token, return the record that maps [sub] to [id],
    [preferred_username] to [nickName], [given_name] to [firstName],
    [family_name] to [lastName], [name] and [email] to themselves (a
    key the payload lacks giving [undefined]), with a null
    [avatarUrl], the verification state [verified] when
    [email_verified] is truthy, so when it is [true], and [unverified]
    otherwise, so when it is [false], the bearer token, and the
    payload itself as [original]. *)
Theorem user_record respond accessToken this token callback history request props :
  outgoing this token callback = inr request ->
  respond (asked this token callback history) request = inr (VObj props) ->
  let record :=
    {| User.id := default VUndefined (props !! "sub");
       User.nickName := default VUndefined (props !! "preferred_username");
       User.lastName := default VUndefined (props !! "family_name");
       User.firstName := default VUndefined (props !! "given_name");
       User.name := default VUndefined (props !! "name");
       User.email := default VUndefined (props !! "email");
       User.avatarUrl := VNull;
       User.emailVerificationState :=
         if truthy (default VUndefined (props !! "email_verified"))
         then "verified" else "unverified";
       User.original := VObj props;
       User.token := {| AccessToken.type := "bearer"; AccessToken.token := token |} |} in
  fst (userFromToken respond this token callback history) = inr record /\
  (forall history0 tok,
     accessToken this callback history0 = (inr tok, history) ->
     AccessToken.token tok = token ->
     fst (user respond accessToken this callback history0) = inr record) /\
  (props !! "email_verified" = Some (VBool true) ->
     User.emailVerificationState record = "verified") /\
  (props !! "email_verified" = Some (VBool false) ->
     User.emailVerificationState record = "unverified").
Proof.
  intros Hout Hpayload record.
  assert (fst (getUserInfo respond this token callback history) = inr record) as Hrun.
  { exact (getUserInfo_object _ _ _ _ _ _ _ Hout Hpayload). }
  split; [done|]. split.
  - intros history0 tok Hexchange <-.
    by rewrite (user_after_exchange _ _ _ _ _ _ _ Hexchange).
  - unfold record; cbn [User.emailVerificationState].
    split; by intros ->.
Qed.

Lemma user_record_witness :
  let record :=
    {| User.id := VStr "u1";
       User.nickName := VStr "bob";
       User.lastName := VStr "Smith";
       User.firstName := VStr "Bob";
       User.name := VStr "Bob Smith";
       User.email := VStr "b@x.com";
       User.avatarUrl := VNull;
       User.emailVerificationState := "verified";
       User.original := VObj bob;
       User.token := {| AccessToken.type := "bearer"; AccessToken.token := "tok" |} |} in
  fst (userFromToken bob_provider sample_driver "tok" None
         [SentPost (httpClient (accessTokenUrl sample_driver))]) = inr record /\
  fst (user bob_provider sample_exchange sample_driver None []) = inr record.
Proof.
  intros record.
  destruct (user_record bob_provider sample_exchange sample_driver "tok" None
              [SentPost (httpClient (accessTokenUrl sample_driver))] _ bob
              eq_refl eq_refl) as (Hdirect & Hexchanged & _).
  split; [exact Hdirect|].
  exact (Hexchanged [] _ eq_refl eq_refl).
Defined.

(** C6: a GET that [userFromToken] and [user] send goes to the
    [userInfoUrl] override when the configuration supplies one, and to
    the URL derived from the template otherwise.  It is the one GET
    they add when there is no customizer or the customizer returns; a
    customizer that throws leaves them without any. *)
Theorem user_info_url respond accessToken ctx cfg this token callback history :
  constructor ctx cfg = inr this ->
  exists derived,
    buildKeycloakUrl cfg "userinfo" = inr derived /\
    (forall request,
       outgoing this token callback = inr request ->
       baseUrl request =
         match Config.userInfoUrl cfg with
         | Some override => override
         | None => derived
         end /\
       gets (snd (userFromToken respond this token callback history))
         = (gets history ++ [request])%list /\
       forall history0 tok,
         accessToken this callback history0 = (inr tok, history) ->
         AccessToken.token tok = token ->
         gets (snd (user respond accessToken this callback history0))
           = (gets history ++ [request])%list) /\
    (forall e,
       outgoing this token callback = inl e ->
       gets (snd (userFromToken respond this token callback history)) = gets history /\
       forall history0 tok,
         accessToken this callback history0 = (inr tok, history) ->
         AccessToken.token tok = token ->
         gets (snd (user respond accessToken this callback history0)) = gets history) /\
    exists request, outgoing this token None = inr request.
Proof.
  intros Hnew.
  destruct (constructor_inr _ _ _ Hnew) as (url & realm & Hurl & Hrealm & Hthis).
  eexists. split; [|split; [|split]].
  - unfold buildKeycloakUrl. by rewrite Hurl, Hrealm.
  - intros request Hout. split; [|split].
    + rewrite (outgoing_baseUrl _ _ _ _ Hout), Hthis.
      cbn [config userInfoUrl loadState].
      by destruct (Config.userInfoUrl cfg).
    + exact (getUserInfo_gets _ _ _ _ _ _ Hout).
    + intros history0 tok Hexchange <-.
      rewrite (user_after_exchange _ _ _ _ _ _ _ Hexchange).
      exact (getUserInfo_gets _ _ _ _ _ _ Hout).
  - intros e Hout. split.
    + exact (getUserInfo_gets_thrown _ _ _ _ _ _ Hout).
    + intros history0 tok Hexchange <-.
      rewrite (user_after_exchange _ _ _ _ _ _ _ Hexchange).
      exact (getUserInfo_gets_thrown _ _ _ _ _ _ Hout).
  - by eexists.
Qed.

Lemma user_info_url_witness :
  exists this derived request,
    constructor sample_ctx override_config = inr this /\
    buildKeycloakUrl override_config "userinfo" = inr derived /\
    baseUrl request = "https://sso.example/me" /\
    gets (snd (userFromToken bob_provider this "tok" None [])) = [request].
Proof.
  eexists.
  destruct (user_info_url bob_provider sample_exchange sample_ctx override_config _
              "tok" None [] eq_refl) as (derived & H1 & Hsent & _ & _).
  destruct (Hsent _ eq_refl) as (H2 & H3 & _).
  eexists derived, _. by repeat split.
Defined.

(** C7, as stated, fails: a customizer that sets its own
    [Authorization] header is obeyed, and the request leaves without
    the bearer token. *)
Lemma authorization_header_counterexample :
  exists request,
    gets (snd (userFromToken bob_provider sample_driver "tok" (Some basic_auth) []))
      = [request] /\
    headers request !! "Authorization" = Some (VStr "Basic Zm9v") /\
    headers request !! "Authorization" <> Some (VStr "Bearer tok").
Proof.
  eexists. split; [reflexivity|]. split; [reflexivity|]. discriminate.
Qed.

(** C7, amended: when no customizer is supplied, or the customizer,
    called on the request the driver has configured, returns and
    leaves the [Authorization] and [Accept] headers as it finds them,
    the request that [userFromToken] and [user] send carries
    [Authorization: Bearer <token>] and [Accept: application/json]. *)
Theorem authenticated_headers respond accessToken this token callback history :
  keeps_headers callback
    (getAuthenticatedRequest
       (nullish (Config.userInfoUrl (config this)) (userInfoUrl this)) token) ->
  exists request,
    headers request !! "Authorization" = Some (VStr ("Bearer " +:+ token)) /\
    headers request !! "Accept" = Some (VStr "application/json") /\
    gets (snd (userFromToken respond this token callback history))
      = (gets history ++ [request])%list /\
    forall history0 tok,
      accessToken this callback history0 = (inr tok, history) ->
      AccessToken.token tok = token ->
      gets (snd (user respond accessToken this callback history0))
        = (gets history ++ [request])%list.
Proof.
  rewrite getAuthenticatedRequest_configured. intros Hkeeps.
  assert (exists request,
            outgoing this token callback = inr request /\
            headers request !! "Authorization"
              = headers (configured this token) !! "Authorization" /\
            headers request !! "Accept"
              = headers (configured this token) !! "Accept")
    as (request & Hout & Hauthorization & Haccept).
  { destruct callback as [f|]; cbn [keeps_headers outgoing] in *.
    - destruct Hkeeps as (after & Hf & H1 & H2).
      unfold call. rewrite Hf. by eexists.
    - by eexists. }
  exists request. split; [|split; [|split]].
  - rewrite Hauthorization. apply configured_Authorization.
  - rewrite Haccept. apply configured_Accept.
  - exact (getUserInfo_gets _ _ _ _ _ _ Hout).
  - intros history0 tok Hexchange <-.
    rewrite (user_after_exchange _ _ _ _ _ _ _ Hexchange).
    exact (getUserInfo_gets _ _ _ _ _ _ Hout).
Qed.

Lemma authenticated_headers_witness :
  exists request,
    headers request !! "Authorization" = Some (VStr "Bearer tok") /\
    headers request !! "Accept" = Some (VStr "application/json") /\
    gets (snd (userFromToken bob_provider sample_driver "tok" (Some basic_if_missing) []))
      = [request].
Proof.
  destruct (authenticated_headers bob_provider sample_exchange sample_driver "tok"
              (Some basic_if_missing) []) as (request & H1 & H2 & H3 & _).
  - eexists. split; [reflexivity|]. split; reflexivity.
  - exists request. by repeat split.
Defined.

(** C8: a supplied customizer is invoked once, on the request that
    [getAuthenticatedRequest] has finished configuring (the URL, both
    headers, the JSON parsing mode), and before anything is sent.
    When it returns, the GET that follows sends the request as the
    customizer left it, so that a header the customizer sets is the
    one that is sent; when it throws, what it throws is the outcome
    and nothing is sent. *)
Theorem customizer_invoked_once respond accessToken this token f history :
  let request :=
    getAuthenticatedRequest
      (nullish (Config.userInfoUrl (config this)) (userInfoUrl this)) token in
  (baseUrl request = nullish (Config.userInfoUrl (config this)) (userInfoUrl this) /\
   headers request !! "Authorization" = Some (VStr ("Bearer " +:+ token)) /\
   headers request !! "Accept" = Some (VStr "application/json") /\
   responseType request = AsJson) /\
  (forall after,
     f request = inr after ->
     exists sent,
       call f request = inr sent /\
       baseUrl sent = baseUrl request /\
       headers sent = headers after /\
       params sent = params after /\
       fields sent = fields after /\
       snd (userFromToken respond this token (Some f) history)
         = (history ++ [Invoked request; SentGet sent])%list /\
       forall history0 tok,
         accessToken this (Some f) history0 = (inr tok, history) ->
         AccessToken.token tok = token ->
         snd (user respond accessToken this (Some f) history0)
           = (history ++ [Invoked request; SentGet sent])%list) /\
  (forall e,
     f request = inl e ->
     userFromToken respond this token (Some f) history
       = (inl e, (history ++ [Invoked request])%list) /\
     forall history0 tok,
       accessToken this (Some f) history0 = (inr tok, history) ->
       AccessToken.token tok = token ->
       user respond accessToken this (Some f) history0
         = (inl e, (history ++ [Invoked request])%list)).
Proof.
  intros request. unfold request. rewrite getAuthenticatedRequest_configured.
  split; [|split].
  - split; [done|]. split; [apply configured_Authorization|].
    split; [apply configured_Accept|done].
  - intros after Hafter.
    assert (outgoing this token (Some f)
            = inr {| baseUrl := baseUrl (configured this token);
                     params := params after; headers := headers after;
                     fields := fields after; requestType := requestType after;
                     responseType := responseType after |}) as Hout.
    { cbn [outgoing]. unfold call. by rewrite Hafter. }
    eexists. split; [exact Hout|]. do 4 (split; [done|]).
    pose proof (getUserInfo_history respond _ _ _ history _ Hout) as Hrun.
    cbn [asked] in Hrun. rewrite <- app_assoc in Hrun. cbn [app] in Hrun.
    split; [exact Hrun|].
    intros history0 tok Hexchange <-.
    by rewrite (user_after_exchange _ _ _ _ _ _ _ Hexchange).
  - intros e Hthrown.
    assert (outgoing this token (Some f) = inl e) as Hout.
    { cbn [outgoing]. unfold call. by rewrite Hthrown. }
    pose proof (getUserInfo_thrown respond _ _ _ history _ Hout) as Hrun.
    split; [exact Hrun|].
    intros history0 tok Hexchange <-.
    by rewrite (user_after_exchange _ _ _ _ _ _ _ Hexchange).
Qed.

Lemma customizer_invoked_once_witness :
  let request :=
    getAuthenticatedRequest "https://host/realms/r1/protocol/openid-connect/userinfo" "tok" in
  let token_request :=
    httpClient "https://host/realms/r1/protocol/openid-connect/token" in
  (exists sent,
     call basic_auth request = inr sent /\
     headers sent !! "Authorization" = Some (VStr "Basic Zm9v") /\
     snd (userFromToken bob_provider sample_driver "tok" (Some basic_auth)
            [Invoked token_request; SentPost (header "Authorization" (VStr "Basic Zm9v") token_request)])
       = [Invoked token_request;
          SentPost (header "Authorization" (VStr "Basic Zm9v") token_request);
          Invoked request; SentGet sent] /\
     snd (user bob_provider sample_exchange sample_driver (Some basic_auth) [])
       = [Invoked token_request;
          SentPost (header "Authorization" (VStr "Basic Zm9v") token_request);
          Invoked request; SentGet sent]) /\
  userFromToken bob_provider sample_driver "tok" (Some failing_customizer) []
    = (inl (JsError "customizer failed"), [Invoked request]).
Proof.
  intros request token_request. split.
  - destruct (customizer_invoked_once bob_provider sample_exchange sample_driver "tok"
                basic_auth
                [Invoked token_request;
                 SentPost (header "Authorization" (VStr "Basic Zm9v") token_request)])
      as (_ & Hreturns & _).
    destruct (Hreturns _ eq_refl) as (sent & Hcall & _ & Hheaders & _ & _ & Hdirect & Huser).
    exists sent. split; [exact Hcall|]. split.
    + rewrite Hheaders. apply lookup_insert_eq.
    + split; [exact Hdirect|]. exact (Huser [] _ eq_refl eq_refl).
  - destruct (customizer_invoked_once bob_provider sample_exchange sample_driver "tok"
                failing_customizer []) as (_ & _ & Hthrows).
    exact (proj1 (Hthrows _ eq_refl)).
Defined.

(** C9: [userFromToken] is [user] with the code exchange skipped; in a
    run of [user] whose exchange yields the token [t], what follows the
    exchange is the run of [userFromToken] on [t]: the same fetch, the
    same record, the same history. *)
Theorem userFromToken_refines_user respond accessToken this token callback history :
  userFromToken respond this token callback history
    = userFromToken_spec respond this token callback history /\
  forall history0 tok,
    accessToken this callback history0 = (inr tok, history) ->
    AccessToken.token tok = token ->
    user respond accessToken this callback history0
      = userFromToken respond this token callback history.
Proof.
  split; [reflexivity|].
  intros history0 tok Hexchange <-.
  by rewrite (user_after_exchange _ _ _ _ _ _ _ Hexchange).
Qed.

Lemma userFromToken_refines_user_witness :
  user bob_provider sample_exchange sample_driver (Some with_locale) []
  = userFromToken bob_provider sample_driver "tok" (Some with_locale)
      [Invoked (httpClient (accessTokenUrl sample_driver));
       SentPost (param "ui_locales" (VStr "de") (httpClient (accessTokenUrl sample_driver)))].
Proof.
  apply (proj2 (userFromToken_refines_user bob_provider sample_exchange sample_driver
                  "tok" (Some with_locale) _)
           [] {| AccessToken.token := "tok"; AccessToken.type := "bearer" |});
    reflexivity.
Defined.

(** ** The URL template *)

(** With a realm and an action free of dollar signs, each placeholder
    is replaced at its first occurrence, the text around it kept as
    it is. *)
Lemma buildKeycloakUrl_first_occurrence cfg action url realm pre post pre' post' :
  Config.keycloakUrl cfg = Some url ->
  Config.realm cfg = Some realm ->
  includes realm "$" = false ->
  includes action "$" = false ->
  find_first "{{realm}}" url = Some (pre, post) ->
  find_first "{{action}}" (pre +:+ realm +:+ post) = Some (pre', post') ->
  buildKeycloakUrl cfg action = inr (pre' +:+ action +:+ post').
Proof.
  intros Hurl Hrealm Hr Ha Hfirst Hsecond. unfold buildKeycloakUrl.
  rewrite Hurl, Hrealm. cbn [ToString].
  rewrite (replace_literal _ _ _ _ _ Hr Hfirst).
  by rewrite (replace_literal _ _ _ _ _ Ha Hsecond).
Qed.

(** Further occurrences of either placeholder stay in the derived URL. *)
Lemma buildKeycloakUrl_repeated_placeholders :
  buildKeycloakUrl
    (with_fields (Some "r1") (Some "https://host/{{realm}}/{{realm}}/{{action}}/{{action}}")
       None None None) "token"
  = inr "https://host/r1/{{realm}}/token/{{action}}".
Proof. reflexivity. Qed.

(** C10 at a realm that contains a replacement pattern: the realm is
    not substituted as it is; the pattern expands to the placeholder
    itself, which so remains in the derived URL. *)
Lemma buildKeycloakUrl_dollar_realm :
  buildKeycloakUrl (with_fields (Some "a$&") (Some template) None None None) "auth"
  = inr "https://host/realms/a{{realm}}/protocol/openid-connect/auth".
Proof. reflexivity. Qed.

(** * Further properties of the driver *)

(** ** Endpoints *)

Lemma includes_false s search :
  includes s search = false -> find_first search s = None.
Proof.
  unfold includes. rewrite bool_decide_eq_false.
  destruct (find_first search s); [|done]. intros []. eauto.
Qed.

Lemma includes_true s search :
  includes s search = true ->
  exists preceding following, find_first search s = Some (preceding, following).
Proof.
  unfold includes. rewrite bool_decide_eq_true.
  intros [[preceding following] H]. eauto.
Qed.

(** Replacing the action placeholder by one of the three actions. *)
Lemma replace_action s action preceding following :
  action = "auth" \/ action = "token" \/ action = "userinfo" ->
  find_first "{{action}}" s = Some (preceding, following) ->
  replace s "{{action}}" action = preceding +:+ action +:+ following.
Proof.
  intros Haction Hfind. apply replace_literal; [|done].
  by destruct Haction as [->|[->| ->]].
Qed.

(** X1: when the realm has no dollar sign, a successful construction
    puts the realm, as it is, in the place of the first realm
    placeholder of the template, and the three endpoints are the
    resulting text with its first action placeholder replaced by
    [auth], [token] and [userinfo]; the text before and after each
    placeholder is kept. *)
Theorem constructor_literal_substitution ctx cfg this url realm pre post pre' post' :
  constructor ctx cfg = inr this ->
  Config.keycloakUrl cfg = Some url ->
  Config.realm cfg = Some realm ->
  includes realm "$" = false ->
  find_first "{{realm}}" url = Some (pre, post) ->
  find_first "{{action}}" (pre +:+ realm +:+ post) = Some (pre', post') ->
  url = pre +:+ "{{realm}}" +:+ post /\
  authorizeUrl this = pre' +:+ "auth" +:+ post' /\
  accessTokenUrl this = pre' +:+ "token" +:+ post' /\
  userInfoUrl this = pre' +:+ "userinfo" +:+ post'.
Proof.
  intros Hnew Hurl Hrealm Hfree Hfirst Hsecond.
  destruct (constructor_inr _ _ _ Hnew) as (url0 & realm0 & Hurl0 & Hrealm0 & ->).
  rewrite Hurl in Hurl0. rewrite Hrealm in Hrealm0.
  injection Hurl0 as <-. injection Hrealm0 as <-.
  split; [by apply find_first_split|].
  cbn [authorizeUrl accessTokenUrl userInfoUrl loadState].
  rewrite (replace_literal _ _ _ _ _ Hfree Hfirst).
  repeat split; apply replace_action; auto.
Qed.

Lemma constructor_literal_substitution_witness :
  exists this,
    constructor sample_ctx sample_config = inr this /\
    template = "https://host/realms/" +:+ "{{realm}}" +:+ "/protocol/openid-connect/{{action}}" /\
    authorizeUrl this = "https://host/realms/r1/protocol/openid-connect/" +:+ "auth" +:+ "" /\
    accessTokenUrl this = "https://host/realms/r1/protocol/openid-connect/" +:+ "token" +:+ "" /\
    userInfoUrl this = "https://host/realms/r1/protocol/openid-connect/" +:+ "userinfo" +:+ "".
Proof.
  eexists. split; [reflexivity|].
  apply (constructor_literal_substitution sample_ctx sample_config _ template "r1"
           "https://host/realms/" "/protocol/openid-connect/{{action}}"
           "https://host/realms/r1/protocol/openid-connect/" "");
    reflexivity.
Defined.

(** X2: a template that contains neither placeholder is taken as it
    is: a successful construction makes all three endpoints equal to
    the template, the realm appearing in none of them. *)
Theorem constructor_without_placeholders ctx cfg this url :
  constructor ctx cfg = inr this ->
  Config.keycloakUrl cfg = Some url ->
  includes url "{{realm}}" = false ->
  includes url "{{action}}" = false ->
  authorizeUrl this = url /\ accessTokenUrl this = url /\ userInfoUrl this = url.
Proof.
  intros Hnew Hurl Hrealm%includes_false Haction%includes_false.
  destruct (constructor_inr _ _ _ Hnew) as (url0 & realm & Hurl0 & _ & ->).
  rewrite Hurl in Hurl0. injection Hurl0 as <-.
  cbn [authorizeUrl accessTokenUrl userInfoUrl loadState].
  rewrite (replace_absent _ _ _ Hrealm).
  by rewrite !(replace_absent _ _ _ Haction).
Qed.

Lemma constructor_without_placeholders_witness :
  exists this,
    constructor sample_ctx
      (with_fields (Some "r1") (Some "https://host/oidc") None None None) = inr this /\
    authorizeUrl this = "https://host/oidc" /\
    accessTokenUrl this = "https://host/oidc" /\
    userInfoUrl this = "https://host/oidc".
Proof.
  eexists. split; [reflexivity|].
  apply (constructor_without_placeholders sample_ctx
           (with_fields (Some "r1") (Some "https://host/oidc") None None None)
           _ "https://host/oidc"); reflexivity.
Defined.

(** X3: when the template, after the realm substitution, contains the
    action placeholder, a successful construction yields three
    endpoints that differ from one another. *)
Theorem constructor_distinct_endpoints ctx cfg this url realm :
  constructor ctx cfg = inr this ->
  Config.keycloakUrl cfg = Some url ->
  Config.realm cfg = Some realm ->
  includes (replace url "{{realm}}" realm) "{{action}}" = true ->
  authorizeUrl this <> accessTokenUrl this /\
  accessTokenUrl this <> userInfoUrl this /\
  authorizeUrl this <> userInfoUrl this.
Proof.
  intros Hnew Hurl Hrealm (pre & post & Hfind)%includes_true.
  destruct (constructor_inr _ _ _ Hnew) as (url0 & realm0 & Hurl0 & Hrealm0 & ->).
  rewrite Hurl in Hurl0. rewrite Hrealm in Hrealm0.
  injection Hurl0 as <-. injection Hrealm0 as <-.
  cbn [authorizeUrl accessTokenUrl userInfoUrl loadState].
  rewrite (replace_literal _ _ "auth" _ _ eq_refl Hfind).
  rewrite (replace_literal _ _ "token" _ _ eq_refl Hfind).
  rewrite (replace_literal _ _ "userinfo" _ _ eq_refl Hfind).
  repeat split; intros Heq; apply (inj (String.append pre)) in Heq;
    rewrite !append_cons in Heq; discriminate.
Qed.

Lemma constructor_distinct_endpoints_witness :
  exists this,
    constructor sample_ctx sample_config = inr this /\
    authorizeUrl this <> accessTokenUrl this /\
    accessTokenUrl this <> userInfoUrl this /\
    authorizeUrl this <> userInfoUrl this.
Proof.
  eexists. split; [reflexivity|].
  apply (constructor_distinct_endpoints sample_ctx sample_config _ template "r1");
    reflexivity.
Defined.

(** ** Construction failures *)

(** X4: the constructor fails in two ways only, each for its own
    reason: with the error that names the realm, when the realm is
    absent or empty, or with the error that names the URL, when the
    realm is non-empty and the URL is absent or empty.  The two calls
    of [replace] behind the non-null assertions never fail. *)
Theorem constructor_failures ctx cfg e :
  constructor ctx cfg = inl e ->
  (e = JsError realm_missing /\ undefined_or_empty (Config.realm cfg)) \/
  (e = JsError keycloakUrl_missing /\
   ~ undefined_or_empty (Config.realm cfg) /\
   undefined_or_empty (Config.keycloakUrl cfg)).
Proof.
  unfold constructor.
  destruct (truthy (optional (Config.realm cfg))) eqn:Hrealm; cbn [negb].
  - destruct (truthy (optional (Config.keycloakUrl cfg))) eqn:Hurl; cbn [negb].
    + apply truthy_optional in Hurl as (url & Eu & _).
      unfold buildKeycloakUrl. rewrite Eu. discriminate.
    + intros [= <-]. right. split; [done|].
      split; [|by apply falsy_optional].
      intros Hfalsy%falsy_optional. congruence.
  - intros [= <-]. left. split; [done|]. by apply falsy_optional.
Qed.

Lemma constructor_failures_witness :
  (JsError keycloakUrl_missing = JsError realm_missing /\
   undefined_or_empty (Config.realm no_url_config)) \/
  (JsError keycloakUrl_missing = JsError keycloakUrl_missing /\
   ~ undefined_or_empty (Config.realm no_url_config) /\
   undefined_or_empty (Config.keycloakUrl no_url_config)).
Proof.
  apply (constructor_failures sample_ctx no_url_config). reflexivity.
Defined.

(** X5: for a driver that the constructor has produced, [accessDenied]
    is decided by the [error] input of the request the driver was
    constructed for; the configuration plays no part. *)
Theorem accessDenied_of_request (http : HttpContext) cfg this :
  constructor http cfg = inr this ->
  (accessDenied this = true <->
   request_data http !! "error" = Some (VStr "user_denied")).
Proof.
  intros (url & realm & _ & _ & ->)%constructor_inr.
  unfold accessDenied, input. cbn [ctx loadState request_data].
  destruct (request_data http !! "error") as [v|]; simpl.
  - destruct v; try (split; [discriminate|intros [= ]]).
    rewrite String.eqb_eq. split; [by intros ->|by intros [= ->]].
  - split; discriminate.
Qed.

Lemma accessDenied_of_request_witness :
  exists this,
    constructor
      {| request_data := {[ "error" := VStr "user_denied" ]}; cookies := ∅ |}
      sample_config = inr this /\
    accessDenied this = true.
Proof.
  eexists. split; [reflexivity|].
  apply (accessDenied_of_request
           {| request_data := {[ "error" := VStr "user_denied" ]}; cookies := ∅ |}
           sample_config); reflexivity.
Defined.

(** ** Outcomes of the fetch *)

(** X6: nothing catches what a customizer throws: when the customizer
    throws, [userFromToken], and [user] after a successful exchange,
    end with what it threw, after the one invocation of the customizer
    and without calling [request.get()]. *)
Theorem throwing_customizer_aborts respond accessToken this token f history e :
  f (getAuthenticatedRequest
       (nullish (Config.userInfoUrl (config this)) (userInfoUrl this)) token)
    = inl e ->
  let request :=
    getAuthenticatedRequest
      (nullish (Config.userInfoUrl (config this)) (userInfoUrl this)) token in
  userFromToken respond this token (Some f) history
    = (inl e, (history ++ [Invoked request])%list) /\
  gets (snd (userFromToken respond this token (Some f) history)) = gets history /\
  forall history0 tok,
    accessToken this (Some f) history0 = (inr tok, history) ->
    AccessToken.token tok = token ->
    user respond accessToken this (Some f) history0
      = (inl e, (history ++ [Invoked request])%list).
Proof.
  rewrite getAuthenticatedRequest_configured. intros Hthrown request.
  assert (outgoing this token (Some f) = inl e) as Hout.
  { cbn [outgoing]. unfold call. by rewrite Hthrown. }
  pose proof (getUserInfo_thrown respond _ _ _ history _ Hout) as Hrun.
  split; [exact Hrun|]. split.
  - exact (getUserInfo_gets_thrown _ _ _ _ _ _ Hout).
  - intros history0 tok Hexchange <-.
    by rewrite (user_after_exchange _ _ _ _ _ _ _ Hexchange).
Qed.

Lemma throwing_customizer_aborts_witness :
  let request :=
    getAuthenticatedRequest "https://host/realms/r1/protocol/openid-connect/userinfo" "tok" in
  userFromToken bob_provider sample_driver "tok" (Some failing_customizer) []
    = (inl (JsError "customizer failed"), [Invoked request]) /\
  gets (snd (userFromToken bob_provider sample_driver "tok" (Some failing_customizer) []))
    = [].
Proof.
  intros request.
  destruct (throwing_customizer_aborts bob_provider sample_exchange sample_driver "tok"
              failing_customizer [] (JsError "customizer failed") eq_refl)
    as (Hrun & Hgets & _).
  split; [exact Hrun|exact Hgets].
Defined.

(** X7: a failure of the GET is passed on as it is, by [userFromToken]
    and by [user] after a successful exchange: the caller receives the
    very error of the request, and no record. *)
Theorem fetch_failure_passed_on respond accessToken this token callback history request e :
  outgoing this token callback = inr request ->
  respond (asked this token callback history) request = inl e ->
  fst (userFromToken respond this token callback history) = inl e /\
  forall history0 tok,
    accessToken this callback history0 = (inr tok, history) ->
    AccessToken.token tok = token ->
    fst (user respond accessToken this callback history0) = inl e.
Proof.
  intros Hout Hfail.
  pose proof (getUserInfo_failure _ _ _ _ _ _ _ Hout Hfail) as Hrun.
  split; [exact Hrun|].
  intros history0 tok Hexchange <-.
  by rewrite (user_after_exchange _ _ _ _ _ _ _ Hexchange).
Qed.

Lemma fetch_failure_passed_on_witness :
  fst (userFromToken unreachable_provider sample_driver "tok" None
         [SentPost (httpClient (accessTokenUrl sample_driver))])
    = inl (Rejected (VStr "ECONNREFUSED")) /\
  fst (user unreachable_provider sample_exchange sample_driver None [])
    = inl (Rejected (VStr "ECONNREFUSED")).
Proof.
  destruct (fetch_failure_passed_on unreachable_provider sample_exchange sample_driver
              "tok" None [SentPost (httpClient (accessTokenUrl sample_driver))] _
              (Rejected (VStr "ECONNREFUSED")) eq_refl eq_refl)
    as [Hdirect Hexchanged].
  split; [exact Hdirect|].
  exact (Hexchanged [] _ eq_refl eq_refl).
Defined.

(** X8: when the provider answers with the JSON value [null], reading
    the first field fails: [userFromToken] ends with a [TypeError] and
    returns no record. *)
Theorem null_payload_TypeError respond this token callback history request :
  outgoing this token callback = inr request ->
  respond (asked this token callback history) request = inr VNull ->
  exists message,
    fst (userFromToken respond this token callback history) = inl (TypeError message).
Proof.
  intros Hout Hnull. eexists.
  exact (getUserInfo_null _ _ _ _ _ _ Hout Hnull).
Qed.

Lemma null_payload_TypeError_witness :
  exists message,
    fst (userFromToken null_provider sample_driver "tok" None [])
      = inl (TypeError message).
Proof.
  apply (null_payload_TypeError null_provider sample_driver "tok" None [] _ eq_refl).
  reflexivity.
Defined.

(** X9: when the code exchange fails, [user] ends with the error of
    the exchange and with the history the exchange left: no user-info
    request is sent and no customizer is invoked for it. *)
Theorem user_stops_at_failed_exchange respond accessToken this callback history e history' :
  accessToken this callback history = (inl e, history') ->
  fst (user respond accessToken this callback history) = inl e /\
  snd (user respond accessToken this callback history) = history' /\
  gets (snd (user respond accessToken this callback history)) = gets history'.
Proof.
  intros Hexchange.
  by rewrite (user_exchange_failure _ _ _ _ _ _ _ Hexchange).
Qed.

Lemma user_stops_at_failed_exchange_witness :
  fst (user bob_provider refused_exchange sample_driver None [])
    = inl (Rejected (VStr "invalid_grant")) /\
  snd (user bob_provider refused_exchange sample_driver None [])
    = [SentPost (httpClient (accessTokenUrl sample_driver))] /\
  gets (snd (user bob_provider refused_exchange sample_driver None [])) = [].
Proof.
  apply (user_stops_at_failed_exchange bob_provider refused_exchange sample_driver
           None [] (Rejected (VStr "invalid_grant"))
           [SentPost (httpClient (accessTokenUrl sample_driver))]).
  reflexivity.
Defined.

(** X10: every object payload is accepted: whenever the request
    leaves, [userFromToken] returns a
    record in which a field whose key the payload lacks is
    [undefined], the avatar is [null], the verification state is
    [verified] when [email_verified] is truthy and [unverified]
    otherwise, the token is the one passed in, typed [bearer], and
    [original] is the payload. *)
Theorem object_payload_record respond this token callback history request props :
  outgoing this token callback = inr request ->
  respond (asked this token callback history) request = inr (VObj props) ->
  fst (userFromToken respond this token callback history)
  = inr {| User.id := default VUndefined (props !! "sub");
           User.nickName := default VUndefined (props !! "preferred_username");
           User.lastName := default VUndefined (props !! "family_name");
           User.firstName := default VUndefined (props !! "given_name");
           User.name := default VUndefined (props !! "name");
           User.email := default VUndefined (props !! "email");
           User.avatarUrl := VNull;
           User.emailVerificationState :=
             if truthy (default VUndefined (props !! "email_verified"))
             then "verified" else "unverified";
           User.original := VObj props;
           User.token := {| AccessToken.type := "bearer"; AccessToken.token := token |} |}.
Proof.
  intros Hout Hpayload. exact (getUserInfo_object _ _ _ _ _ _ _ Hout Hpayload).
Qed.

Lemma object_payload_record_witness :
  fst (userFromToken loose_provider sample_driver "tok" None [])
  = inr {| User.id := VStr "u2";
           User.nickName := VUndefined;
           User.lastName := VUndefined;
           User.firstName := VUndefined;
           User.name := VUndefined;
           User.email := VUndefined;
           User.avatarUrl := VNull;
           User.emailVerificationState := "verified";
           User.original := VObj loose_payload;
           User.token := {| AccessToken.type := "bearer"; AccessToken.token := "tok" |} |}.
Proof.
  exact (object_payload_record loose_provider sample_driver "tok" None [] _
           loose_payload eq_refl eq_refl).
Defined.

(** X11: the verification state follows the truthiness of
    [email_verified], not its being the boolean [true]: a payload
    without the field, or with [null] or the empty string, gives
    [unverified], and any non-empty string, the text [false] included,
    gives [verified]. *)
Theorem verification_by_truthiness respond this token callback history request props :
  outgoing this token callback = inr request ->
  respond (asked this token callback history) request = inr (VObj props) ->
  exists record,
    fst (userFromToken respond this token callback history) = inr record /\
    (props !! "email_verified" = None ->
       User.emailVerificationState record = "unverified") /\
    (props !! "email_verified" = Some VNull ->
       User.emailVerificationState record = "unverified") /\
    (props !! "email_verified" = Some (VStr "") ->
       User.emailVerificationState record = "unverified") /\
    (forall s, s <> "" -> props !! "email_verified" = Some (VStr s) ->
       User.emailVerificationState record = "verified").
Proof.
  intros Hout Hpayload. eexists. split.
  { exact (getUserInfo_object _ _ _ _ _ _ _ Hout Hpayload). }
  unfold mapped; cbn [User.emailVerificationState].
  split; [by intros ->|]. split; [by intros ->|]. split; [by intros ->|].
  intros s Hs ->. cbn [default from_option id truthy].
  by apply String.eqb_neq in Hs as ->.
Qed.

Lemma verification_by_truthiness_witness :
  exists record,
    fst (userFromToken loose_provider sample_driver "tok" None []) = inr record /\
    User.emailVerificationState record = "verified".
Proof.
  destruct (verification_by_truthiness loose_provider sample_driver "tok" None [] _
              loose_payload eq_refl eq_refl) as (record & Hrun & _ & _ & _ & Hstring).
  exists record. split; [exact Hrun|].
  apply (Hstring "false"); [discriminate|reflexivity].
Defined.

(** X12: without a customizer the token travels in the
    [Authorization] header only: the request that [userFromToken]
    sends has no query parameter and no body field, its URL does not
    depend on the token, and its headers are the two that the driver
    sets. *)
Theorem token_only_in_header respond this token history :
  exists request,
    gets (snd (userFromToken respond this token None history))
      = (gets history ++ [request])%list /\
    params request = ∅ /\
    fields request = ∅ /\
    baseUrl request = nullish (Config.userInfoUrl (config this)) (userInfoUrl this) /\
    forall key,
      is_Some (headers request !! key) <-> key = "Authorization" \/ key = "Accept".
Proof.
  exists (configured this token).
  split; [exact (getUserInfo_gets _ _ _ None _ _ eq_refl)|].
  split; [done|]. split; [done|]. split; [done|].
  intros key. unfold configured; cbn [headers].
  rewrite !lookup_insert_is_Some, lookup_empty, is_Some_alt.
  split.
  - intros [<-|[_ [<-|[_ []]]]]; auto.
  - intros [->| ->]; [right; split; [done|by left]|by left].
Qed.

(** ** Registration *)

(** X13: when the container resolves the Ally manager, [boot] leaves
    it with a factory under the name [keycloak] that builds, for a
    configuration and a context, the driver that [KeycloakService]
    builds for them, and with every other registration as it was. *)
Theorem boot_registers_driver make Ally :
  make "Adonis/Addons/Ally" = inr Ally ->
  exists Ally',
    boot make = inr Ally' /\
    (exists factory,
       Ally' !! "keycloak" = Some factory /\
       forall a b config http, factory a b config http = KeycloakService config http) /\
    (forall name, name <> "keycloak" -> Ally' !! name = Ally !! name).
Proof.
  intros Hmake. unfold boot. rewrite Hmake. eexists. split; [done|]. split.
  - eexists. split; [apply lookup_insert_eq|done].
  - intros name Hname. unfold extend. by rewrite lookup_insert_ne.
Qed.

Lemma boot_registers_driver_witness :
  exists Ally',
    boot sample_make = inr Ally' /\
    (exists factory,
       Ally' !! "keycloak" = Some factory /\
       forall a b config http, factory a b config http = KeycloakService config http) /\
    (forall name, name <> "keycloak" ->
       Ally' !! name
       = ({[ "other" := fun _ _ _ _ => inl (JsError "not this driver") ]}
            : gmap string ExtendCallback) !! name).
Proof.
  apply (boot_registers_driver sample_make). reflexivity.
Defined.
